(** * AI English Tutor front end: the conversation view controller

    A shallow embedding of [src/App.js]: the component state of [App], its
    recognizer callbacks, the press/release handlers, the settle timer and the
    asynchronous [sendTextToBackend], followed by the properties of the
    written specification that concern them. *)

From Stdlib Require Import ZArith NArith QArith List String Ascii Bool Lia.
From stdpp Require Import base list.
Import ListNotations.

Local Open Scope Z_scope.
Set Warnings "-register-all".

(** ** JavaScript values *)

(** A JS string is a sequence of UTF-16 code units. *)
Definition jsstring := list N.

(** Source literals, written as Rocq strings of ASCII characters. *)
Definition js (s : string) : jsstring :=
  List.map N_of_ascii (list_ascii_of_string s).

(** WhiteSpace and LineTerminator code points, the ones [String.prototype.trim]
    strips. *)
Definition is_ws (c : N) : bool :=
  ((9 <=? c) && (c <=? 13) || (c =? 32) || (c =? 160) || (c =? 5760)
   || (8192 <=? c) && (c <=? 8202) || (c =? 8232) || (c =? 8233)
   || (c =? 8239) || (c =? 8287) || (c =? 12288) || (c =? 65279))%N.

Fixpoint trimStart (s : jsstring) : jsstring :=
  match s with
  | c :: s' => if is_ws c then trimStart s' else s
  | [] => []
  end.

Definition trimEnd (s : jsstring) : jsstring := rev (trimStart (rev s)).

Definition trim (s : jsstring) : jsstring := trimEnd (trimStart s).

(** Truthiness of a string: every string but the empty one. *)
Definition truthy (s : jsstring) : bool :=
  match s with [] => false | _ :: _ => true end.

Inductive JSValue :=
| JUndefined
| JNull
| JBool (b : bool)
| JNum (n : Z)
| JStr (s : jsstring)
| JObj (props : list (jsstring * JSValue)).

Definition jsstring_eqb (a b : jsstring) : bool :=
  bool_decide (a = b).

Fixpoint assoc (k : jsstring) (props : list (jsstring * JSValue)) : JSValue :=
  match props with
  | [] => JUndefined
  | (k', v) :: rest => if jsstring_eqb k k' then v else assoc k rest
  end.

(** Outcome of evaluating a piece of code: a value, or an exception. *)
Inductive Completion (A : Type) :=
| Normal (a : A)
| Throw.
Arguments Normal {A} a.
Arguments Throw {A}.

(** [v.k]: a TypeError on [undefined] and [null], the property of an object,
    and [undefined] on the other primitives (which own none of the names read
    here, [reply] and [data]). *)
Definition get_prop (v : JSValue) (k : jsstring) : Completion JSValue :=
  match v with
  | JUndefined | JNull => Throw
  | JObj props => Normal (assoc k props)
  | _ => Normal JUndefined
  end.

Definition nullish (v : JSValue) : bool :=
  match v with JUndefined | JNull => true | _ => false end.

(** ** Data model *)

Inductive Sender := user | ai | system.

(** [{ id, text, sender }]. *)
Record Message := mkMessage {
  msg_id : Z;
  msg_text : JSValue;
  msg_sender : Sender
}.

Inductive Method := POST.

(** One call of [axios.post(url, data, { headers })]. *)
Record Request := mkRequest {
  req_method : Method;
  req_url : jsstring;
  req_body : JSValue;
  req_headers : list (jsstring * jsstring)
}.

Inductive VoiceCall := VStart (locale : jsstring) | VStop.

Record SpeakOptions := mkSpeakOptions {
  voice : jsstring;
  pitch : Q
}.

(** What the functions created by one render see of the state: the constants
    [textToProcess] and [isRecording] bound by that render's [useState]
    calls. *)
Record Closure := mkClosure {
  c_textToProcess : jsstring;
  c_isRecording : bool
}.

(** The [useState] cells, the [textRef] ref, the bindings of the latest render,
    and what the component has asked of its collaborators so far. *)
Record AppState := mkApp {
  messages : list Message;
  isRecording : bool;
  isLoading : bool;
  textToProcess : jsstring;
  textRef : jsstring;
  rendered : Closure;
  clock : Z;
  requests : list Request;
  alerts : list (jsstring * jsstring);
  spoken : list (JSValue * SpeakOptions);
  voiceCalls : list VoiceCall;
  timers : nat;
  inflight : nat
}.

Definition API_URL : jsstring := js "http://localhost:8000/chat".

(** State on mount: the [useState] and [useRef] initial values. *)
Definition initial (now : Z) : AppState :=
  mkApp [] false false [] [] (mkClosure [] false) now [] [] [] [] 0 0.

(** ** Effects: state passing with exceptions

    Calls of [console.log] and [console.error] are left out throughout. *)

Definition Eff (A : Type) := AppState -> Completion A * AppState.

Definition ret {A} (a : A) : Eff A := fun s => (Normal a, s).

Definition throw {A} : Eff A := fun s => (Throw, s).

Definition bind {A B} (m : Eff A) (k : A -> Eff B) : Eff B :=
  fun s => match m s with
           | (Normal a, s') => k a s'
           | (Throw, s') => (Throw, s')
           end.

Notation "x <- m ;; k" := (bind m (fun x => k))
  (at level 100, m at next level, right associativity).
Notation "m ;; k" := (bind m (fun _ => k))
  (at level 100, right associativity).

Definition lift {A} (c : Completion A) : Eff A := fun s => (c, s).

(** [try { body } catch (error) { handler } finally { final }]. *)
Definition try_catch_finally (body handler final : Eff unit) : Eff unit :=
  fun s => let r := match body s with
                    | (Normal _, s') => (Normal tt, s')
                    | (Throw, s') => handler s'
                    end in
           match final (snd r) with
           | (Normal _, s'') => (fst r, s'')
           | (Throw, s'') => (Throw, s'')
           end.

Definition try_catch (body handler : Eff unit) : Eff unit :=
  try_catch_finally body handler (ret tt).

Definition when (b : bool) (m : Eff unit) : Eff unit :=
  if b then m else ret tt.

Definition exec (m : Eff unit) (s : AppState) : AppState := snd (m s).

(** *** Primitive effects *)

Definition setMessages (f : list Message -> list Message) : Eff unit :=
  fun s => (Normal tt,
    mkApp (f (messages s)) (isRecording s) (isLoading s) (textToProcess s)
      (textRef s) (rendered s) (clock s) (requests s) (alerts s) (spoken s) (voiceCalls s)
      (timers s) (inflight s)).

Definition setIsRecording (b : bool) : Eff unit :=
  fun s => (Normal tt,
    mkApp (messages s) b (isLoading s) (textToProcess s)
      (textRef s) (rendered s) (clock s) (requests s) (alerts s) (spoken s) (voiceCalls s)
      (timers s) (inflight s)).

Definition setIsLoading (b : bool) : Eff unit :=
  fun s => (Normal tt,
    mkApp (messages s) (isRecording s) b (textToProcess s)
      (textRef s) (rendered s) (clock s) (requests s) (alerts s) (spoken s) (voiceCalls s)
      (timers s) (inflight s)).

Definition setTextToProcess (t : jsstring) : Eff unit :=
  fun s => (Normal tt,
    mkApp (messages s) (isRecording s) (isLoading s) t
      (textRef s) (rendered s) (clock s) (requests s) (alerts s) (spoken s) (voiceCalls s)
      (timers s) (inflight s)).

Definition setTextRef (t : jsstring) : Eff unit :=
  fun s => (Normal tt,
    mkApp (messages s) (isRecording s) (isLoading s) (textToProcess s)
      t (rendered s) (clock s) (requests s) (alerts s) (spoken s) (voiceCalls s)
      (timers s) (inflight s)).

Definition setRendered (c : Closure) : Eff unit :=
  fun s => (Normal tt,
    mkApp (messages s) (isRecording s) (isLoading s) (textToProcess s)
      (textRef s) c (clock s) (requests s) (alerts s) (spoken s) (voiceCalls s)
      (timers s) (inflight s)).

Definition setClock (now : Z) : Eff unit :=
  fun s => (Normal tt,
    mkApp (messages s) (isRecording s) (isLoading s) (textToProcess s)
      (textRef s) (rendered s) now (requests s) (alerts s) (spoken s) (voiceCalls s)
      (timers s) (inflight s)).

Definition Date_now : Eff Z := fun s => (Normal (clock s), s).

(** [axios.post(url, data, { headers })]: the request leaves; its promise
    settles in a later turn of the event loop. *)
Definition axios_post (url : jsstring) (data : JSValue)
    (headers : list (jsstring * jsstring)) : Eff unit :=
  fun s => (Normal tt,
    mkApp (messages s) (isRecording s) (isLoading s) (textToProcess s)
      (textRef s) (rendered s) (clock s)
      (requests s ++ [mkRequest POST url data headers])
      (alerts s) (spoken s) (voiceCalls s) (timers s) (S (inflight s))).

Definition Alert_alert (title message : jsstring) : Eff unit :=
  fun s => (Normal tt,
    mkApp (messages s) (isRecording s) (isLoading s) (textToProcess s)
      (textRef s) (rendered s) (clock s) (requests s) (alerts s ++ [(title, message)])
      (spoken s) (voiceCalls s) (timers s) (inflight s)).

(** [Speech.speak(text, options)]; [ok] tells whether the platform call
    returns or throws. *)
Definition Speech_speak (ok : bool) (t : JSValue) (o : SpeakOptions) : Eff unit :=
  fun s => (if ok then Normal tt else Throw,
    mkApp (messages s) (isRecording s) (isLoading s) (textToProcess s)
      (textRef s) (rendered s) (clock s) (requests s) (alerts s) (spoken s ++ [(t, o)])
      (voiceCalls s) (timers s) (inflight s)).

(** A call of the recognizer, awaited; [ok] tells whether its promise is
    fulfilled or rejected. *)
Definition Voice_call (ok : bool) (c : VoiceCall) : Eff unit :=
  fun s => (if ok then Normal tt else Throw,
    mkApp (messages s) (isRecording s) (isLoading s) (textToProcess s)
      (textRef s) (rendered s) (clock s) (requests s) (alerts s) (spoken s)
      (voiceCalls s ++ [c]) (timers s) (inflight s)).

(** [setTimeout(callback, 1000)]. *)
Definition setTimeout : Eff unit :=
  fun s => (Normal tt,
    mkApp (messages s) (isRecording s) (isLoading s) (textToProcess s)
      (textRef s) (rendered s) (clock s) (requests s) (alerts s) (spoken s) (voiceCalls s)
      (S (timers s)) (inflight s)).

Definition clearTimer : Eff unit :=
  fun s => (Normal tt,
    mkApp (messages s) (isRecording s) (isLoading s) (textToProcess s)
      (textRef s) (rendered s) (clock s) (requests s) (alerts s) (spoken s) (voiceCalls s)
      (Nat.pred (timers s)) (inflight s)).

Definition settleRequest : Eff unit :=
  fun s => (Normal tt,
    mkApp (messages s) (isRecording s) (isLoading s) (textToProcess s)
      (textRef s) (rendered s) (clock s) (requests s) (alerts s) (spoken s) (voiceCalls s)
      (timers s) (Nat.pred (inflight s))).

Definition get {A} (f : AppState -> A) : Eff A := fun s => (Normal (f s), s).

(** ** The component [App] *)

(** *** [sendTextToBackend] (lines 95-128)

    An [async] function runs in the caller's turn up to its first [await];
    what follows the [await] runs in a later turn, when the promise of
    [axios.post] has settled.  The two parts are [sendTextToBackend] and
    [sendTextToBackend_resume]. *)

Definition sendTextToBackend (text : jsstring) : Eff unit :=
  if negb (truthy text) || negb (truthy (trim text)) then ret tt else
  setIsLoading true ;;
  now <- Date_now ;;
  let userMsg := mkMessage now (JStr text) user in
  setMessages (fun prev => prev ++ [userMsg]) ;;
  setTextToProcess [] ;;
  axios_post API_URL (JObj [(js "text", JStr text)])
    [(js "Content-Type", js "application/json")].

(** How the promise of [axios.post] settles. *)
Inductive Outcome :=
| Fulfilled (response : JSValue)
| Rejected.

Definition await (o : Outcome) : Eff JSValue :=
  match o with
  | Fulfilled response => ret response
  | Rejected => throw
  end.

Definition speakOptions : SpeakOptions :=
  mkSpeakOptions (js "com.apple.voice.super-compact.en-US.Samantha") (12 # 10).

Definition errorText : jsstring := js "Error connecting to server.".

Definition sendTextToBackend_resume (o : Outcome) (speak_ok : bool) : Eff unit :=
  try_catch_finally
    (response <- await o ;;
     (* console.log(response.data) *)
     lift (get_prop response (js "data")) ;;
     (* response.reply ?? response.data.reply *)
     top <- lift (get_prop response (js "reply")) ;;
     aiResponse <- (if nullish top
                    then data <- lift (get_prop response (js "data")) ;;
                         lift (get_prop data (js "reply"))
                    else ret top) ;;
     now <- Date_now ;;
     let aiMsg := mkMessage (now + 1) aiResponse ai in
     setMessages (fun prev => prev ++ [aiMsg]) ;;
     (* loadVoices() is not awaited and only logs *)
     Speech_speak speak_ok aiResponse speakOptions)
    (Alert_alert (js "Error") (js "Failed to connect to the tutor.") ;;
     now <- Date_now ;;
     setMessages (fun prev => prev ++ [mkMessage now (JStr errorText) system]))
    (setIsLoading false).

(** *** Recognizer callbacks (lines 50-71) *)

Definition onSpeechStart : Eff unit := setIsRecording true.

(** [textToProcess] is the binding of the render that created the callback. *)
Definition onSpeechEnd (c : Closure) : Eff unit :=
  setIsRecording false ;;
  when (truthy (trim (c_textToProcess c)))
       (sendTextToBackend (c_textToProcess c)).

Definition onSpeechError : Eff unit := setIsRecording false.

(** [e.value] is [None] when the event carries no [value]. *)
Definition onSpeechResults (value : option (list jsstring)) : Eff unit :=
  match value with
  | Some vs => if (0 <? length vs)%nat
               then setTextToProcess (hd [] vs)
               else ret tt
  | None => ret tt
  end.

(** *** Recording (lines 73-93); [ok] is the fate of the recognizer's promise *)

Definition stopRecording (stop_ok : bool) : Eff unit :=
  try_catch (Voice_call stop_ok VStop ;; setIsRecording false) (ret tt).

Definition startRecording (c : Closure) (stop_ok start_ok : bool) : Eff unit :=
  try_catch
    (setTextToProcess [] ;;
     when (c_isRecording c) (stopRecording stop_ok) ;;
     Voice_call start_ok (VStart (js "en-US")))
    (ret tt).

(** *** The ref and the gesture (lines 130-149) *)

(** The effect that keeps the ref in sync, run after a render. *)
Definition syncTextRef : Eff unit :=
  t <- get textToProcess ;; setTextRef t.

Definition handlePressIn (c : Closure) (stop_ok start_ok : bool) : Eff unit :=
  startRecording c stop_ok start_ok.

(** The function handed to [setTimeout]. *)
Definition timerCallback : Eff unit :=
  t <- get textRef ;;
  when (truthy t) (sendTextToBackend t).

Definition handlePressOut (stop_ok : bool) : Eff unit :=
  stopRecording stop_ok ;; setTimeout.

(** *** Mounting and the event loop *)

(** The mount effect (lines 30-48, dependency list [[]]) assigns the
    recognizer's callbacks once, from the first render, whose bindings are the
    [useState] initial values. *)
Definition mountClosure : Closure :=
  mkClosure (textToProcess (initial 0)) (isRecording (initial 0)).

(** A re-render binds the current state and then runs the ref effect. *)
Definition render : Eff unit :=
  t <- get textToProcess ;;
  r <- get isRecording ;;
  setRendered (mkClosure t r) ;;
  syncTextRef.

Inductive Event :=
| Permission (granted : bool)
| Render
| PressIn (stop_ok start_ok : bool)
| PressOut (stop_ok : bool)
| TimerFire
| SpeechStart
| SpeechEnd
| SpeechError
| SpeechResults (value : option (list jsstring))
| Settle (o : Outcome) (speak_ok : bool).

(** What runs on an event.  [Permission] is the answer to the microphone
    permission request made on mount (lines 31-38).  A timer fires only if
    one is pending, and a request settles only if one is in flight (the
    continuation does not depend on which).  The recognizer's events run the
    callbacks assigned on mount.  The button is inert while [isLoading] is
    rendered; the model delivers gestures regardless, so every sequence the
    component can see is among those considered. *)
Definition dispatch (e : Event) : Eff unit :=
  match e with
  | Permission granted =>
      when (negb granted)
           (Alert_alert (js "Permission needed")
              (js "Microphone permission is required to use this app."))
  | Render => render
  | PressIn stop_ok start_ok =>
      c <- get rendered ;; handlePressIn c stop_ok start_ok
  | PressOut stop_ok => handlePressOut stop_ok
  | TimerFire =>
      n <- get timers ;;
      when (0 <? n)%nat (clearTimer ;; timerCallback)
  | SpeechStart => onSpeechStart
  | SpeechEnd => onSpeechEnd mountClosure
  | SpeechError => onSpeechError
  | SpeechResults value => onSpeechResults value
  | Settle o speak_ok =>
      n <- get inflight ;;
      when (0 <? n)%nat (settleRequest ;; sendTextToBackend_resume o speak_ok)
  end.

(** One turn of the event loop at wall-clock time [now] (milliseconds). *)
Definition step (s : AppState) (te : Z * Event) : AppState :=
  exec (setClock (fst te) ;; dispatch (snd te)) s.

Definition run (s : AppState) (tes : list (Z * Event)) : AppState :=
  fold_left step tes s.

Arguments sendTextToBackend : simpl never.
Arguments sendTextToBackend_resume : simpl never.

(** ** Auxiliary definitions for the statements *)

(** The request the wire protocol prescribes for utterance [T]. *)
Definition tutorRequest (T : jsstring) : Request :=
  mkRequest POST (js "http://localhost:8000/chat")
    (JObj [(js "text", JStr T)])
    [(js "Content-Type", js "application/json")].

(** The value lines 108-110 compute from a response (or the exception they
    raise), as a function of the response alone. *)
Definition aiResponseOf (response : JSValue) : Completion JSValue :=
  match get_prop response (js "data") with
  | Throw => Throw
  | Normal body =>
      match get_prop response (js "reply") with
      | Throw => Throw
      | Normal top => if nullish top then get_prop body (js "reply")
                      else Normal top
      end
  end.

(** The remote call is rejected, or the reply cannot be read off the
    response. *)
Definition callFails (o : Outcome) : bool :=
  match o with
  | Rejected => true
  | Fulfilled response =>
      match aiResponseOf response with Throw => true | Normal _ => false end
  end.

(** The specification's wider notion of a failed call: rejected, or a
    response whose body does not carry a string [reply]. *)
Definition hasReplyString (body : JSValue) : bool :=
  match get_prop body (js "reply") with
  | Normal (JStr _) => true
  | _ => false
  end.

Definition remoteFailure (o : Outcome) : bool :=
  match o with
  | Rejected => true
  | Fulfilled response =>
      match get_prop response (js "data") with
      | Normal body => negb (hasReplyString body)
      | Throw => true
      end
  end.

(** What the specification promises of a failed exchange that started in
    state [s1] and settles in state [s2]. *)
Definition errorHandled (s2 s3 : AppState) : Prop :=
  (exists now, messages s3 =
               messages s2 ++ [mkMessage now (JStr errorText) system])
  /\ alerts s3 = alerts s2 ++ [(js "Error", js "Failed to connect to the tutor.")]
  /\ isLoading s3 = false.

(** Events between a release and its timer during which the recognizer
    delivers no text. *)
Definition quiet (e : Event) : bool :=
  match e with
  | Render | SpeechStart | SpeechEnd | SpeechError => true
  | SpeechResults None | SpeechResults (Some []) => true
  | _ => false
  end.

(** An object of the shape axios resolves with. *)
Definition axiosResponse (data : JSValue) (status : Z) (statusText : jsstring)
    (headers config request : JSValue) : JSValue :=
  JObj [(js "data", data); (js "status", JNum status);
        (js "statusText", JStr statusText); (js "headers", headers);
        (js "config", config); (js "request", request)].

(** [grows s s']: the handler that led from [s] to [s'] only appended to the
    conversation and to the log of requests. *)
Definition grows (s s' : AppState) : Prop :=
  (exists l, messages s' = messages s ++ l) /\
  (exists q, requests s' = requests s ++ q).

(** *** Concrete inputs *)

Definition hello : jsstring := js "hello".

(** A fulfilled call with the expected body. *)
Definition okResponse : JSValue :=
  axiosResponse (JObj [(js "reply", JStr (js "Hi there!"))]) 200 (js "OK")
    (JObj []) (JObj []) (JObj []).

(** A fulfilled call whose body is an object without [reply]. *)
Definition noReplyResponse : JSValue :=
  axiosResponse (JObj [(js "answer", JStr (js "Hi there!"))]) 200 (js "OK")
    (JObj []) (JObj []) (JObj []).

(** Press, one result ["hello"], a re-render, release: the candidate text is
    held by the state, by the latest render and by the ref, and the settle
    timer is pending. *)
Definition heldHello : AppState :=
  run (initial 0)
    [(0, PressIn true true); (10, SpeechStart);
     (500, SpeechResults (Some [hello])); (501, Render);
     (900, PressOut true)].

(** ** Further notions for the statements *)

Definition isRecognizerEvent (e : Event) : bool :=
  match e with
  | SpeechStart | SpeechEnd | SpeechError | SpeechResults _ => true
  | _ => false
  end.

Definition count (p : Message -> bool) (ms : list Message) : nat :=
  length (List.filter p ms).

(** The event is not a settlement during which the speech output throws. *)
Definition speechReturns (e : Event) : bool :=
  match e with
  | Settle _ speak_ok => speak_ok
  | _ => true
  end.



(** The text a recognizer event delivers: the first element of a non-empty
    list of results. *)
Definition heardOf (e : Event) : list jsstring :=
  match e with
  | SpeechResults (Some (v :: _)) => [v]
  | _ => []
  end.

(** The texts the recognizer has delivered in a sequence of events. *)
Definition heard (tes : list (Z * Event)) : list jsstring :=
  flat_map (fun te => heardOf (snd te)) tes.

(** All the text the component holds or has sent is among [H]. *)
Definition known (H : list jsstring) (s : AppState) : Prop :=
  (textToProcess s = [] \/ In (textToProcess s) H) /\
  (textRef s = [] \/ In (textRef s) H) /\
  Forall (fun r => exists v, In v H /\ r = tutorRequest v) (requests s).

(** The text has a code unit that is not whitespace. *)
Definition hasNonWs (T : jsstring) : bool :=
  existsb (fun c => negb (is_ws c)) T.

Definition isRelease (e : Event) : bool :=
  match e with PressOut _ => true | _ => false end.

(** Number of releases of the button in a sequence of events. *)
Definition releases (tes : list (Z * Event)) : nat :=
  length (List.filter (fun te => isRelease (snd te)) tes).

Definition isUser (m : Message) : bool :=
  match msg_sender m with user => true | _ => false end.

Definition isAi (m : Message) : bool :=
  match msg_sender m with ai => true | _ => false end.

Definition isSystem (m : Message) : bool :=
  match msg_sender m with system => true | _ => false end.

(** The [text] property of the body of a request. *)
Definition requestText (r : Request) : JSValue :=
  match get_prop (req_body r) (js "text") with
  | Normal v => v
  | Throw => JUndefined
  end.

Definition errorAlert : jsstring * jsstring :=
  (js "Error", js "Failed to connect to the tutor.").

Definition isErrorAlert (a : jsstring * jsstring) : bool :=
  bool_decide (a = errorAlert).

(** What each sender's Messages carry. *)
Definition wellFormed (m : Message) : Prop :=
  match msg_sender m with
  | user => exists T, msg_text m = JStr T /\ hasNonWs T = true
  | system => msg_text m = JStr errorText
  | ai => True
  end.

(** Successive turns are at least two milliseconds apart, the first one at
    least two after [last]. *)
Fixpoint spaced (last : Z) (tes : list (Z * Event)) : Prop :=
  match tes with
  | [] => True
  | (t, _) :: rest => last + 2 <= t /\ spaced t rest
  end.

(** ** Strings *)

Lemma trimStart_ws (T : jsstring) :
  forallb is_ws T = true -> trimStart T = [].
Proof.
  induction T as [|c T IH]; simpl; [reflexivity|].
  intros H. apply andb_prop in H as [Hc HT]. rewrite Hc. auto.
Qed.

Lemma trim_ws (T : jsstring) :
  forallb is_ws T = true -> trim T = [].
Proof.
  intros H. unfold trim, trimEnd. rewrite (trimStart_ws T H). reflexivity.
Qed.

Lemma trim_truthy (T : jsstring) :
  truthy (trim T) = true -> truthy T = true.
Proof.
  destruct T as [|c T]; [|reflexivity].
  simpl. discriminate.
Qed.

(** ** The send operation *)

Lemma sendTextToBackend_blank (T : jsstring) (s : AppState) :
  truthy (trim T) = false -> exec (sendTextToBackend T) s = s.
Proof.
  intros H. unfold exec, sendTextToBackend. rewrite H.
  rewrite orb_true_r. reflexivity.
Qed.

Lemma sendTextToBackend_sends (T : jsstring) (s : AppState) :
  truthy (trim T) = true ->
  exec (sendTextToBackend T) s =
  mkApp (messages s ++ [mkMessage (clock s) (JStr T) user])
        (isRecording s) true [] (textRef s) (rendered s) (clock s)
        (requests s ++ [tutorRequest T]) (alerts s) (spoken s) (voiceCalls s)
        (timers s) (S (inflight s)).
Proof.
  intros H. unfold exec, sendTextToBackend.
  rewrite H, (trim_truthy T H). reflexivity.
Qed.

Lemma resume_fulfilled (response r : JSValue) (ok : bool) (s : AppState) :
  aiResponseOf response = Normal r ->
  exec (sendTextToBackend_resume (Fulfilled response) ok) s =
  mkApp (messages s ++ mkMessage (clock s + 1) r ai ::
           (if ok then [] else [mkMessage (clock s) (JStr errorText) system]))
        (isRecording s) false (textToProcess s) (textRef s) (rendered s)
        (clock s) (requests s)
        (alerts s ++
           (if ok then []
            else [(js "Error", js "Failed to connect to the tutor.")]))
        (spoken s ++ [(r, speakOptions)]) (voiceCalls s)
        (timers s) (inflight s).
Proof.
  unfold aiResponseOf. intros H.
  unfold exec, sendTextToBackend_resume, try_catch_finally, bind, await, ret, lift.
  destruct (get_prop response (js "data")) as [body|]; [|discriminate].
  destruct (get_prop response (js "reply")) as [top|]; [|discriminate].
  destruct (nullish top).
  - rewrite H. destruct ok; simpl; rewrite <- ?app_assoc, ?app_nil_r; reflexivity.
  - injection H as <-. destruct ok; simpl; rewrite <- ?app_assoc, ?app_nil_r; reflexivity.
Qed.

Lemma resume_fails (o : Outcome) (ok : bool) (s : AppState) :
  callFails o = true ->
  exec (sendTextToBackend_resume o ok) s =
  mkApp (messages s ++ [mkMessage (clock s) (JStr errorText) system])
        (isRecording s) false (textToProcess s) (textRef s) (rendered s)
        (clock s) (requests s)
        (alerts s ++ [(js "Error", js "Failed to connect to the tutor.")])
        (spoken s) (voiceCalls s) (timers s) (inflight s).
Proof.
  unfold callFails, aiResponseOf. intros H.
  unfold exec, sendTextToBackend_resume, try_catch_finally, bind, await, ret, lift, throw.
  destruct o as [response|]; [|reflexivity].
  destruct (get_prop response (js "data")) as [body|]; [|reflexivity].
  destruct (get_prop response (js "reply")) as [top|]; [|reflexivity].
  destruct (nullish top); [|discriminate].
  destruct (get_prop body (js "reply")); [discriminate|reflexivity].
Qed.

Lemma resume_cases (o : Outcome) :
  callFails o = true \/
  exists response r, o = Fulfilled response /\ aiResponseOf response = Normal r.
Proof.
  destruct o as [response|]; [|left; reflexivity].
  unfold callFails. destruct (aiResponseOf response) as [r|] eqn:E.
  - right. exists response, r. split; [reflexivity | exact E].
  - left. reflexivity.
Qed.

(** ** Frame properties of the handlers *)

Lemma grows_refl (s : AppState) : grows s s.
Proof. split; exists []; rewrite app_nil_r; reflexivity. Qed.

Lemma grows_same (s s' : AppState) :
  messages s' = messages s -> requests s' = requests s -> grows s s'.
Proof.
  intros H G. split; exists []; rewrite app_nil_r; assumption.
Qed.

Lemma grows_trans (s1 s2 s3 : AppState) :
  grows s1 s2 -> grows s2 s3 -> grows s1 s3.
Proof.
  intros [[l1 H1] [q1 G1]] [[l2 H2] [q2 G2]]. split.
  - exists (l1 ++ l2). rewrite H2, H1, app_assoc. reflexivity.
  - exists (q1 ++ q2). rewrite G2, G1, app_assoc. reflexivity.
Qed.

Lemma sendTextToBackend_grows (T : jsstring) (s : AppState) :
  grows s (exec (sendTextToBackend T) s).
Proof.
  destruct (truthy (trim T)) eqn:E.
  - rewrite (sendTextToBackend_sends T s E). split; eexists; reflexivity.
  - rewrite (sendTextToBackend_blank T s E). apply grows_refl.
Qed.

Lemma resume_grows (o : Outcome) (ok : bool) (s : AppState) :
  grows s (exec (sendTextToBackend_resume o ok) s).
Proof.
  destruct (resume_cases o) as [F | (response & r & -> & E)].
  - rewrite (resume_fails o ok s F). split; [eexists; reflexivity|].
    exists []. simpl. rewrite app_nil_r. reflexivity.
  - rewrite (resume_fulfilled response r ok s E). split; [eexists; reflexivity|].
    exists []. simpl. rewrite app_nil_r. reflexivity.
Qed.

(** A property of the conversation and of the request log that the two parts
    of the send operation preserve is preserved by every turn of the event
    loop: nothing else writes to either. *)
Section StepInvariant.
Variable P : list Message -> list Request -> Prop.
Hypothesis P_send : forall T s,
    P (messages s) (requests s) ->
    P (messages (exec (sendTextToBackend T) s))
      (requests (exec (sendTextToBackend T) s)).
Hypothesis P_resume : forall o ok s,
    P (messages s) (requests s) ->
    P (messages (exec (sendTextToBackend_resume o ok) s))
      (requests (exec (sendTextToBackend_resume o ok) s)).

Lemma dispatch_inv (e : Event) (s : AppState) :
  P (messages s) (requests s) ->
  P (messages (exec (dispatch e) s)) (requests (exec (dispatch e) s)).
Proof.
  intros Hs.
  destruct e as [granted | | stop_ok start_ok | stop_ok | | | | | value
                | o speak_ok].
  - destruct granted; exact Hs.
  - exact Hs.
  - unfold exec, dispatch, handlePressIn, startRecording, stopRecording,
      try_catch, try_catch_finally, bind, get, when, ret.
    destruct (c_isRecording (rendered s)), stop_ok, start_ok; exact Hs.
  - unfold exec, dispatch, handlePressOut, stopRecording,
      try_catch, try_catch_finally, bind, get, when, ret.
    destruct stop_ok; exact Hs.
  - unfold exec, dispatch, bind, get, when, ret.
    destruct (0 <? timers s)%nat; [|exact Hs].
    unfold clearTimer, timerCallback, bind, get, when, ret. cbv beta iota.
    match goal with |- context [truthy ?t] => destruct (truthy t) end;
      [|exact Hs].
    match goal with |- context [sendTextToBackend ?T ?s1] =>
      apply (P_send T s1) end.
    exact Hs.
  - exact Hs.
  - exact Hs.
  - exact Hs.
  - unfold exec, dispatch, onSpeechResults.
    destruct value as [vs|]; [|exact Hs].
    destruct (0 <? length vs)%nat; exact Hs.
  - unfold exec, dispatch, bind, get, when, ret.
    destruct (0 <? inflight s)%nat; [|exact Hs].
    unfold settleRequest. cbv beta iota.
    match goal with |- context [sendTextToBackend_resume ?o ?ok ?s1] =>
      apply (P_resume o ok s1) end.
    exact Hs.
Qed.

Lemma step_inv (s : AppState) (te : Z * Event) :
  P (messages s) (requests s) ->
  P (messages (step s te)) (requests (step s te)).
Proof.
  intros Hs. unfold step, exec, bind, setClock. cbv beta iota.
  match goal with |- context [dispatch ?e ?s1] =>
    apply (dispatch_inv e s1) end.
  exact Hs.
Qed.

Lemma run_inv (tes : list (Z * Event)) (s : AppState) :
  P (messages s) (requests s) ->
  P (messages (run s tes)) (requests (run s tes)).
Proof.
  revert s. induction tes as [|te tes IH]; intros s Hs; [exact Hs|].
  simpl. apply IH, step_inv, Hs.
Qed.
End StepInvariant.

Lemma run_grows (tes : list (Z * Event)) (s : AppState) : grows s (run s tes).
Proof.
  apply (run_inv (fun ms rs => (exists l, ms = messages s ++ l) /\
                               (exists q, rs = requests s ++ q))).
  - intros T s1 H. exact (grows_trans s s1 _ H (sendTextToBackend_grows T s1)).
  - intros o ok s1 H. exact (grows_trans s s1 _ H (resume_grows o ok s1)).
  - apply grows_refl.
Qed.

(** ** Recognizer results (C10) *)

(** C10.  A results event whose [value] is absent or an empty list leaves the
    whole state, and so the held candidate text, as it was; an event with at
    least one value replaces the candidate text by the first element of the
    list and touches nothing else. *)
Theorem onSpeechResults_frame :
  (forall s, exec (onSpeechResults None) s = s) /\
  (forall s, exec (onSpeechResults (Some [])) s = s) /\
  (forall s v vs,
      let s' := exec (onSpeechResults (Some (v :: vs))) s in
      textToProcess s' = v /\ textRef s' = textRef s /\
      messages s' = messages s /\ requests s' = requests s).
Proof.
  split; [|split].
  - intros s. reflexivity.
  - intros s. reflexivity.
  - intros s v vs. cbn. auto.
Qed.

(** ** The guard of the send operation (C9, C8) *)

(** C9.  A candidate text that is not empty but made of whitespace only is
    let through by the truthiness test of the timer callback, and is then
    rejected by the guard of the send operation: the state is unchanged, so no
    Message is appended and no request is issued. *)
Theorem whitespace_text_not_sent (T : jsstring) (s : AppState)
    (Hne : T <> []) (Hws : forallb is_ws T = true) (Href : textRef s = T) :
  truthy (textRef s) = true /\
  exec timerCallback s = exec (sendTextToBackend T) s /\
  exec (sendTextToBackend T) s = s /\
  messages (exec timerCallback s) = messages s /\
  requests (exec timerCallback s) = requests s.
Proof.
  assert (Hs : exec (sendTextToBackend T) s = s).
  { apply sendTextToBackend_blank. rewrite (trim_ws T Hws). reflexivity. }
  assert (Htr : truthy (textRef s) = true).
  { rewrite Href. destruct T; [contradiction|reflexivity]. }
  assert (Ht : exec timerCallback s = exec (sendTextToBackend T) s).
  { unfold exec at 1. unfold timerCallback, bind, get. rewrite Htr, Href.
    reflexivity. }
  rewrite Ht, Hs. auto.
Qed.

Lemma whitespace_text_not_sent_witness :
  let T := [32%N; 9%N; 8195%N] in
  let s := exec (setTextRef T) (initial 0) in
  truthy (textRef s) = true /\
  exec timerCallback s = exec (sendTextToBackend T) s /\
  exec (sendTextToBackend T) s = s /\
  messages (exec timerCallback s) = messages s /\
  requests (exec timerCallback s) = requests s.
Proof.
  apply (whitespace_text_not_sent [32%N; 9%N; 8195%N]
           (exec (setTextRef [32%N; 9%N; 8195%N]) (initial 0))).
  - discriminate.
  - reflexivity.
  - reflexivity.
Defined.

(** C8.  A send of a text that passes the guard issues exactly one request:
    an HTTP POST to the fixed URL, with body [{"text": T}] and the header
    [Content-Type: application/json]. *)
Theorem request_on_the_wire (T : jsstring) (s : AppState)
    (HT : truthy (trim T) = true) :
  exists r, requests (exec (sendTextToBackend T) s) = requests s ++ [r] /\
            req_method r = POST /\
            req_url r = API_URL /\
            API_URL = js "http://localhost:8000/chat" /\
            req_body r = JObj [(js "text", JStr T)] /\
            req_headers r = [(js "Content-Type", js "application/json")].
Proof.
  exists (tutorRequest T). rewrite (sendTextToBackend_sends T s HT).
  repeat split; reflexivity.
Qed.

Lemma request_on_the_wire_witness :
  exists r, requests (exec (sendTextToBackend (js "hello")) (initial 0)) =
            requests (initial 0) ++ [r] /\
            req_method r = POST /\
            req_url r = API_URL /\
            API_URL = js "http://localhost:8000/chat" /\
            req_body r = JObj [(js "text", JStr (js "hello"))] /\
            req_headers r = [(js "Content-Type", js "application/json")].
Proof.
  apply (request_on_the_wire (js "hello") (initial 0)). reflexivity.
Defined.

(** Every request the mounted component has ever issued has that form. *)
Lemma requests_invariant (now : Z) (tes : list (Z * Event)) :
  Forall (fun r => exists T, r = tutorRequest T /\ truthy (trim T) = true)
         (requests (run (initial now) tes)).
Proof.
  apply (run_inv (fun _ rs =>
           Forall (fun r => exists T, r = tutorRequest T /\ truthy (trim T) = true)
                  rs)).
  - intros T s H. destruct (truthy (trim T)) eqn:E.
    + rewrite (sendTextToBackend_sends T s E). simpl.
      apply Forall_app. split; [exact H|].
      constructor; [|constructor]. exists T. auto.
    + rewrite (sendTextToBackend_blank T s E). exact H.
  - intros o ok s H.
    destruct (resume_cases o) as [F | (response & r & -> & E)].
    + rewrite (resume_fails o ok s F). exact H.
    + rewrite (resume_fulfilled response r ok s E). exact H.
  - constructor.
Qed.

(** ** The conversation is append-only (C6) *)

(** C6.  Whatever the sequence of gestures, recognizer events, re-renders,
    timer firings and remote outcomes, the conversation after it extends the
    conversation before it: its first Messages are the old ones, unchanged
    and in their order of insertion. *)
Theorem conversation_append_only (s : AppState) (tes : list (Z * Event)) :
  messages s `prefix_of` messages (run s tes) /\
  take (length (messages s)) (messages (run s tes)) = messages s.
Proof.
  destruct (run_grows tes s) as [[l Hl] _]. split.
  - exists l. exact Hl.
  - rewrite Hl. apply take_app_length.
Qed.

(** ** Release with nothing recognized (C5) *)

Lemma quiet_step (s : AppState) (t : Z) (e : Event) :
  quiet e = true -> textToProcess s = [] -> textRef s = [] ->
  textToProcess (step s (t, e)) = [] /\ textRef (step s (t, e)) = [] /\
  messages (step s (t, e)) = messages s /\
  requests (step s (t, e)) = requests s.
Proof.
  intros Hq Ht Hr.
  destruct e as [g | | a b | a | | | | | [[|v vs]|] | o ok];
    try discriminate Hq;
    cbn; auto.
Qed.

Lemma quiet_run (evs : list (Z * Event)) (s : AppState) :
  forallb (fun te => quiet (snd te)) evs = true ->
  textToProcess s = [] -> textRef s = [] ->
  textToProcess (run s evs) = [] /\ textRef (run s evs) = [] /\
  messages (run s evs) = messages s /\ requests (run s evs) = requests s.
Proof.
  revert s. induction evs as [|[t e] evs IH]; intros s Hq Ht Hr; [auto|].
  simpl in Hq. apply andb_prop in Hq as [He Hq].
  destruct (quiet_step s t e He Ht Hr) as (Ht' & Hr' & Hm' & Hq').
  simpl. destruct (IH (step s (t, e)) Hq Ht' Hr') as (? & ? & Hm & Hrq).
  rewrite Hm, Hrq. auto.
Qed.

Lemma timer_empty (s : AppState) (t : Z) :
  textRef s = [] ->
  messages (step s (t, TimerFire)) = messages s /\
  requests (step s (t, TimerFire)) = requests s /\
  timers (step s (t, TimerFire)) = Nat.pred (timers s).
Proof.
  intros H. destruct s as [ms r l tp tr c k rq al sp vc [|n] inf];
    cbn in H; subst tr; cbn; auto.
Qed.

(** C5, amended.  A release while the held candidate text is empty, followed
    by a settle delay during which the recognizer delivers no text, and then
    by the timer: no Message is appended and no request is issued, at the
    release, in between, or when the timer fires. *)
Theorem release_with_empty_text (s : AppState) (stop_ok : bool) (t0 t1 : Z)
    (evs : list (Z * Event))
    (Htext : textToProcess s = []) (Href : textRef s = [])
    (Hquiet : forallb (fun te => quiet (snd te)) evs = true) :
  let s1 := step s (t0, PressOut stop_ok) in
  let s2 := run s1 evs in
  let s3 := step s2 (t1, TimerFire) in
  (messages s1 = messages s /\ requests s1 = requests s) /\
  (messages s2 = messages s /\ requests s2 = requests s) /\
  (messages s3 = messages s /\ requests s3 = requests s) /\
  timers s2 = S (timers s) /\ timers s3 = timers s.
Proof.
  intros s1 s2 s3.
  assert (H1 : textToProcess s1 = [] /\ textRef s1 = [] /\
               messages s1 = messages s /\ requests s1 = requests s /\
               timers s1 = S (timers s)).
  { subst s1. destruct stop_ok; cbn; auto. }
  destruct H1 as (Ht1 & Hr1 & Hm1 & Hq1 & Hn1).
  destruct (quiet_run evs s1 Hquiet Ht1 Hr1) as (Ht2 & Hr2 & Hm2 & Hq2).
  assert (Hn2 : timers s2 = timers s1).
  { subst s2. clear -Hquiet. revert Hquiet. generalize s1.
    induction evs as [|[t e] evs IH]; intros s0 Hq; [reflexivity|].
    simpl in Hq. apply andb_prop in Hq as [He Hq]. simpl.
    rewrite (IH _ Hq).
    destruct e as [g | | a b | a | | | | | [[|v vs]|] | o ok];
      try discriminate He; reflexivity. }
  destruct (timer_empty s2 t1 Hr2) as (Hm3 & Hq3 & Hn3).
  fold s3 in Hm3, Hq3, Hn3.
  assert (Hn : timers s2 = S (timers s)) by (rewrite Hn2; exact Hn1).
  rewrite Hn in Hn3.
  fold s2 in Hm2, Hq2. simpl in Hn3. clearbody s1 s2 s3.
  repeat split; congruence.
Qed.

Lemma release_with_empty_text_witness :
  let s := initial 0 in
  let s1 := step s (900, PressOut true) in
  let s2 := run s1 [(950, SpeechEnd); (951, Render)] in
  let s3 := step s2 (1900, TimerFire) in
  (messages s1 = messages s /\ requests s1 = requests s) /\
  (messages s2 = messages s /\ requests s2 = requests s) /\
  (messages s3 = messages s /\ requests s3 = requests s) /\
  timers s2 = S (timers s) /\ timers s3 = timers s.
Proof.
  apply (release_with_empty_text (initial 0) true 900 1900
           [(950, SpeechEnd); (951, Render)]); reflexivity.
Defined.

(** C5, as stated, fails: the held text is empty at the release, a result
    lands during the settle delay, and the timer of that release sends it. *)
Lemma late_result_refutes_silent_release :
  ~ (forall (s : AppState) (stop_ok : bool) (t0 t1 : Z)
            (evs : list (Z * Event)),
        textToProcess s = [] -> textRef s = [] ->
        let s3 := step (run (step s (t0, PressOut stop_ok)) evs)
                       (t1, TimerFire) in
        messages s3 = messages s /\ requests s3 = requests s).
Proof.
  intros H.
  destruct (H (run (initial 0) [(0, PressIn true true); (10, SpeechStart)])
              true 900 1900
              [(1200, SpeechResults (Some [hello])); (1201, Render)]
              eq_refl eq_refl) as [Hm _].
  vm_compute in Hm. discriminate Hm.
Qed.

(** The settle delay is there for a result that lands after the release: the
    timer sends what it finds in the ref when it fires. *)
Lemma late_result_is_sent :
  let s := run (initial 0)
    [(0, PressIn true true); (10, SpeechStart); (900, PressOut true);
     (1200, SpeechResults (Some [hello])); (1201, Render);
     (1900, TimerFire)] in
  requests s = [tutorRequest hello] /\
  messages s = [mkMessage 1900 (JStr hello) user].
Proof. vm_compute. split; reflexivity. Qed.

(** ** A successful exchange (C2, C3) *)

(** C2.  When the call is fulfilled with a response object that has a [data]
    property (the HTTP body) and no [reply] property of its own, as the
    responses of axios are, the assistant Message appended carries as text the
    value of the body's [reply] field, and that same value is what is handed to
    the speech output. *)
Theorem reply_text_is_body_reply (s : AppState) (response body r : JSValue)
    (speak_ok : bool)
    (Hdata : get_prop response (js "data") = Normal body)
    (Htop : get_prop response (js "reply") = Normal JUndefined)
    (Hreply : get_prop body (js "reply") = Normal r) :
  let s' := exec (sendTextToBackend_resume (Fulfilled response) speak_ok) s in
  (exists tail,
      messages s' = messages s ++ mkMessage (clock s + 1) r ai :: tail /\
      Forall (fun m => msg_sender m <> ai) tail) /\
  spoken s' = spoken s ++ [(r, speakOptions)].
Proof.
  intros s'. subst s'.
  assert (E : aiResponseOf response = Normal r).
  { unfold aiResponseOf. rewrite Hdata, Htop. exact Hreply. }
  rewrite (resume_fulfilled response r speak_ok s E). cbn. split; [|reflexivity].
  eexists. split; [reflexivity|].
  destruct speak_ok; repeat constructor. discriminate.
Qed.

Lemma reply_text_is_body_reply_witness :
  let s := exec (sendTextToBackend hello) (initial 1000) in
  let s' := exec (sendTextToBackend_resume (Fulfilled okResponse) true) s in
  (exists tail,
      messages s' =
      messages s ++ mkMessage (clock s + 1) (JStr (js "Hi there!")) ai :: tail /\
      Forall (fun m => msg_sender m <> ai) tail) /\
  spoken s' = spoken s ++ [(JStr (js "Hi there!"), speakOptions)].
Proof.
  apply (reply_text_is_body_reply (exec (sendTextToBackend hello) (initial 1000))
           okResponse (JObj [(js "reply", JStr (js "Hi there!"))])
           (JStr (js "Hi there!")) true); reflexivity.
Defined.

(** C3.  A send of a text [T] that passes the guard appends, in its own turn,
    exactly the user Message with text [T]; whatever happens until the call is
    fulfilled only appends after it; and the turn in which the reply arrives
    appends the assistant Message next (followed by the error Message if the
    speech output throws) and no user Message. *)
Theorem user_message_precedes_reply (s : AppState) (T : jsstring)
    (tes : list (Z * Event)) (response r : JSValue) (speak_ok : bool)
    (HT : truthy (trim T) = true)
    (Hr : aiResponseOf response = Normal r) :
  let s1 := exec (sendTextToBackend T) s in
  let s2 := run s1 tes in
  let s3 := exec (sendTextToBackend_resume (Fulfilled response) speak_ok) s2 in
  messages s1 = messages s ++ [mkMessage (clock s) (JStr T) user] /\
  (exists mid, messages s2 = messages s1 ++ mid) /\
  messages s3 =
    messages s2 ++ mkMessage (clock s2 + 1) r ai ::
      (if speak_ok then []
       else [mkMessage (clock s2) (JStr errorText) system]).
Proof.
  intros s1 s2 s3. split; [|split].
  - subst s1. rewrite (sendTextToBackend_sends T s HT). reflexivity.
  - exact (proj1 (run_grows tes s1)).
  - subst s3. rewrite (resume_fulfilled response r speak_ok s2 Hr). reflexivity.
Qed.

Lemma user_message_precedes_reply_witness :
  let s := initial 1000 in
  let s1 := exec (sendTextToBackend hello) s in
  let s2 := run s1 [(1001, Render)] in
  let s3 := exec (sendTextToBackend_resume (Fulfilled okResponse) true) s2 in
  messages s1 = messages s ++ [mkMessage (clock s) (JStr hello) user] /\
  (exists mid, messages s2 = messages s1 ++ mid) /\
  messages s3 =
    messages s2 ++ [mkMessage (clock s2 + 1) (JStr (js "Hi there!")) ai].
Proof.
  apply (user_message_precedes_reply (initial 1000) hello [(1001, Render)]
           okResponse (JStr (js "Hi there!")) true); reflexivity.
Defined.

(** ** A failed exchange (C4) *)

(** C4, as stated, fails: a 2xx response whose body lacks [reply] is a
    malformed body, yet the exchange ends with an assistant Message whose text
    is [undefined], no system Message and no alert. *)
Lemma malformed_body_not_reported :
  ~ (forall s T o speak_ok,
        truthy (trim T) = true -> remoteFailure o = true ->
        errorHandled (exec (sendTextToBackend T) s)
          (exec (sendTextToBackend_resume o speak_ok)
                (exec (sendTextToBackend T) s))).
Proof.
  intros H.
  destruct (H (initial 1000) hello (Fulfilled noReplyResponse) true
              eq_refl eq_refl) as [[now Hm] _].
  vm_compute in Hm. discriminate Hm.
Qed.

(** C4, amended.  When the call is rejected, or the reply cannot be read
    because the response has no body, the turn that handles it appends exactly
    the system Message ["Error connecting to server."] and no assistant
    Message, shows the alert, and clears the loading indicator. *)
Theorem failed_call_reports_error (s : AppState) (T : jsstring)
    (tes : list (Z * Event)) (o : Outcome) (speak_ok : bool)
    (HT : truthy (trim T) = true)
    (Hfail : callFails o = true) :
  let s1 := exec (sendTextToBackend T) s in
  let s2 := run s1 tes in
  let s3 := exec (sendTextToBackend_resume o speak_ok) s2 in
  isLoading s1 = true /\
  messages s3 = messages s2 ++ [mkMessage (clock s2) (JStr errorText) system] /\
  errorText = js "Error connecting to server." /\
  alerts s3 = alerts s2 ++ [(js "Error", js "Failed to connect to the tutor.")] /\
  spoken s3 = spoken s2 /\
  isLoading s3 = false.
Proof.
  intros s1 s2 s3. subst s3. rewrite (resume_fails o speak_ok s2 Hfail).
  subst s1. rewrite (sendTextToBackend_sends T s HT). cbn.
  repeat split; reflexivity.
Qed.

Lemma failed_call_reports_error_witness :
  let s1 := exec (sendTextToBackend hello) (initial 1000) in
  let s2 := run s1 [(1001, Render)] in
  let s3 := exec (sendTextToBackend_resume Rejected true) s2 in
  isLoading s1 = true /\
  messages s3 = messages s2 ++ [mkMessage (clock s2) (JStr errorText) system] /\
  errorText = js "Error connecting to server." /\
  alerts s3 = alerts s2 ++ [(js "Error", js "Failed to connect to the tutor.")] /\
  spoken s3 = spoken s2 /\
  isLoading s3 = false.
Proof.
  apply (failed_call_reports_error (initial 1000) hello [(1001, Render)]
           Rejected true); reflexivity.
Defined.

(** The other way for the reply to be unreadable: a response without body. *)
Lemma null_body_fails :
  callFails (Fulfilled (axiosResponse JNull 200 (js "OK")
                          (JObj []) (JObj []) (JObj []))) = true.
Proof. reflexivity. Qed.

(** ** The end-of-speech callback (C1 is settled further down) *)

(** The callback the mount effect handed to the recognizer is the one of the
    first render; the text it sees is the initial one, and it sends nothing. *)
Lemma mounted_onSpeechEnd_silent (s : AppState) (t : Z) :
  messages (step s (t, SpeechEnd)) = messages s /\
  requests (step s (t, SpeechEnd)) = requests s.
Proof. split; reflexivity. Qed.

(** A callback of a later render, which does see the held text, would send it
    and so would the timer; the component never hands such a callback to the
    recognizer. *)
Lemma unguarded_send (T : jsstring) (c : Closure) (s : AppState) :
  truthy (trim T) = true -> c_textToProcess c = T -> textRef s = T ->
  requests (exec timerCallback (exec (onSpeechEnd c) s)) =
  requests s ++ [tutorRequest T; tutorRequest T].
Proof.
  intros HT Hc Href.
  assert (H1 : exec (onSpeechEnd c) s =
               exec (sendTextToBackend T) (exec (setIsRecording false) s)).
  { unfold exec at 1. unfold onSpeechEnd, bind, when. cbn [setIsRecording].
    rewrite Hc, HT. reflexivity. }
  rewrite H1, (sendTextToBackend_sends T _ HT).
  unfold exec at 1. unfold timerCallback, bind, get, when. cbn [textRef exec setIsRecording snd].
  rewrite Href, (trim_truthy T HT).
  change (snd (sendTextToBackend T ?x)) with (exec (sendTextToBackend T) x).
  rewrite (sendTextToBackend_sends T _ HT). cbn.
  rewrite <- app_assoc. reflexivity.
Qed.

(** ** Identifiers (C7) *)

(** Within one successful exchange the two identifiers differ, the clock
    never running backwards. *)
Lemma pair_identifiers_differ (s : AppState) (T : jsstring)
    (tes : list (Z * Event)) (response r : JSValue) (speak_ok : bool) :
  truthy (trim T) = true -> aiResponseOf response = Normal r ->
  let s2 := run (exec (sendTextToBackend T) s) tes in
  clock s <= clock s2 ->
  msg_id (mkMessage (clock s) (JStr T) user) <>
  msg_id (mkMessage (clock s2 + 1) r ai).
Proof. intros _ _ s2 H. cbn. lia. Qed.

(** C7 does not hold.  The utterance leaves at time 1900 and the call is
    rejected while the clock still reads 1900: the user Message and the system
    Message both get the identifier 1900. *)
Theorem identifiers_collide :
  let s := run heldHello [(1900, TimerFire); (1900, Settle Rejected true)] in
  List.map msg_id (messages s) = [1900; 1900] /\
  List.map msg_sender (messages s) = [user; system] /\
  ~ NoDup (List.map msg_id (messages s)).
Proof.
  vm_compute. repeat split. intros H.
  apply NoDup_cons_1_1 in H. apply H. constructor.
Qed.

(** The same happens across exchanges: a reply that arrives at time [t] is
    given the identifier [t + 1], the one of an utterance sent at [t + 1]. *)
Lemma identifiers_collide_back_to_back :
  let s := run (initial 0)
    [(0, PressIn true true); (10, SpeechStart);
     (300, SpeechResults (Some [hello])); (301, Render);
     (400, PressOut true);
     (450, PressIn true true); (451, Render);
     (700, SpeechResults (Some [hello])); (701, Render);
     (1399, PressOut true);
     (1400, TimerFire); (1401, Render);
     (1500, SpeechResults (Some [js "hello again"])); (1501, Render);
     (2398, Settle (Fulfilled okResponse) true);
     (2399, TimerFire)] in
  List.map msg_id (messages s) = [1400; 2399; 2399] /\
  List.map msg_sender (messages s) = [user; ai; user].
Proof. vm_compute. split; reflexivity. Qed.

(** * The event loop as a whole *)

(** ** The guard, characterised *)

Lemma trimStart_nil_iff (T : jsstring) :
  trimStart T = [] <-> forallb is_ws T = true.
Proof.
  split; [|apply trimStart_ws].
  induction T as [|c T IH]; simpl; [reflexivity|].
  destruct (is_ws c); [exact IH | discriminate].
Qed.

Lemma trimStart_forallb (T : jsstring) :
  forallb is_ws (trimStart T) = forallb is_ws T.
Proof.
  induction T as [|c T IH]; simpl; [reflexivity|].
  destruct (is_ws c) eqn:E; [exact IH|].
  simpl. rewrite E. reflexivity.
Qed.

Lemma forallb_rev (f : N -> bool) (T : jsstring) :
  forallb f (rev T) = forallb f T.
Proof.
  induction T as [|c T IH]; simpl; [reflexivity|].
  rewrite forallb_app, IH. simpl. rewrite andb_true_r. apply andb_comm.
Qed.

Lemma hasNonWs_forallb (T : jsstring) :
  hasNonWs T = negb (forallb is_ws T).
Proof.
  unfold hasNonWs. induction T as [|c T IH]; simpl; [reflexivity|].
  rewrite IH. destruct (is_ws c); reflexivity.
Qed.

Lemma trim_truthy_hasNonWs (T : jsstring) :
  truthy (trim T) = hasNonWs T.
Proof.
  rewrite hasNonWs_forallb.
  destruct (forallb is_ws T) eqn:E.
  - rewrite (trim_ws T E). reflexivity.
  - destruct (trim T) eqn:Ht; [|reflexivity]. exfalso.
    unfold trim, trimEnd in Ht.
    apply (f_equal (@rev N)) in Ht. rewrite rev_involutive in Ht. simpl in Ht.
    apply trimStart_nil_iff in Ht.
    rewrite forallb_rev, trimStart_forallb in Ht. congruence.
Qed.

Lemma send_closed_form (T : jsstring) (s : AppState) :
  exec (sendTextToBackend T) s =
  if hasNonWs T
  then mkApp (messages s ++ [mkMessage (clock s) (JStr T) user])
         (isRecording s) true [] (textRef s) (rendered s) (clock s)
         (requests s ++ [tutorRequest T]) (alerts s) (spoken s)
         (voiceCalls s) (timers s) (S (inflight s))
  else s.
Proof.
  rewrite <- trim_truthy_hasNonWs. destruct (truthy (trim T)) eqn:E.
  - apply sendTextToBackend_sends, E.
  - apply sendTextToBackend_blank, E.
Qed.

(** X1.  The send operation does something exactly when the text has a code
    unit that is not whitespace.  Then it appends the user Message, raises the
    loading flag, clears the candidate text and issues one request, leaving
    the ref, the recording flag, the alerts and the timers alone; otherwise it
    leaves the whole state as it was. *)
Theorem sendTextToBackend_spec (T : jsstring) (s : AppState) :
  exec (sendTextToBackend T) s =
  if hasNonWs T
  then mkApp (messages s ++ [mkMessage (clock s) (JStr T) user])
         (isRecording s) true [] (textRef s) (rendered s) (clock s)
         (requests s ++ [tutorRequest T]) (alerts s) (spoken s)
         (voiceCalls s) (timers s) (S (inflight s))
  else s.
Proof.
  destruct (hasNonWs T) eqn:E.
  - rewrite send_closed_form, E. reflexivity.
  - rewrite send_closed_form, E. reflexivity.
Qed.

(** ** Equations of the event loop *)

Lemma timerCallback_spec (s : AppState) :
  exec timerCallback s = exec (sendTextToBackend (textRef s)) s.
Proof.
  unfold exec at 1. unfold timerCallback, bind, get, when.
  destruct (textRef s) as [|c T] eqn:E; [|reflexivity].
  rewrite send_closed_form. reflexivity.
Qed.

Lemma step_TimerFire (s : AppState) (t : Z) :
  step s (t, TimerFire) =
  if (0 <? timers s)%nat
  then exec (sendTextToBackend (textRef s))
         (exec clearTimer (exec (setClock t) s))
  else exec (setClock t) s.
Proof.
  destruct (0 <? timers s)%nat eqn:E.
  - transitivity (exec timerCallback (exec clearTimer (exec (setClock t) s))).
    + unfold step, exec, dispatch, bind, get, when, setClock. cbv beta iota.
      cbn [timers fst snd]. rewrite E. reflexivity.
    + rewrite timerCallback_spec. reflexivity.
  - unfold step, exec, dispatch, bind, get, when, setClock. cbv beta iota.
    cbn [timers fst snd]. rewrite E. reflexivity.
Qed.

Lemma step_Settle (s : AppState) (t : Z) (o : Outcome) (ok : bool) :
  step s (t, Settle o ok) =
  if (0 <? inflight s)%nat
  then exec (sendTextToBackend_resume o ok)
         (exec settleRequest (exec (setClock t) s))
  else exec (setClock t) s.
Proof.
  unfold step, exec, dispatch, bind, get, when, setClock. cbv beta iota.
  cbn [inflight fst snd].
  destruct (0 <? inflight s)%nat; reflexivity.
Qed.

(** Splits a turn of the event loop into its cases, each with the state
    after it in closed form. *)
Ltac turn s t e :=
  let g := fresh "granted" in
  let a := fresh "stop_ok" in
  let b := fresh "start_ok" in
  let v := fresh "value" in
  let o := fresh "o" in
  let ok := fresh "speak_ok" in
  destruct e as [g | | a b | a | | | | | v | o ok];
  [ destruct g
  |
  | destruct a, b
  | destruct a
  | rewrite (step_TimerFire s t), (send_closed_form (textRef s));
    destruct (0 <? timers s)%nat eqn:?Hpending;
    [destruct (hasNonWs (textRef s)) eqn:?Htext|]
  |
  |
  |
  | destruct v as [[|? ?]|]
  | rewrite (step_Settle s t);
    destruct (0 <? inflight s)%nat eqn:?Hflight;
    [ destruct (resume_cases o) as [?Hfail | (?response & ?r & -> & ?Hreply)];
      [ rewrite (resume_fails _ ok _ Hfail)
      | rewrite (resume_fulfilled _ _ ok _ Hreply); destruct ok ] |] ].

(** ** One send per gesture cycle (C1) *)






(** ** A release sends at most once *)

Lemma step_budget (s : AppState) (t : Z) (e : Event) :
  (length (requests (step s (t, e))) + timers (step s (t, e)) <=
   length (requests s) + timers s + (if isRelease e then 1 else 0))%nat.
Proof.
  turn s t e; cbn; rewrite ?length_app; cbn;
    try (destruct (c_isRecording (rendered s)); cbn);
    try (apply Nat.ltb_lt in Hpending); lia.
Qed.

Lemma run_budget (tes : list (Z * Event)) (s : AppState) :
  (length (requests (run s tes)) + timers (run s tes) <=
   length (requests s) + timers s + releases tes)%nat.
Proof.
  revert s. induction tes as [|[t e] tes IH]; intros s; [simpl; lia|].
  simpl. specialize (IH (step s (t, e))).
  pose proof (step_budget s t e) as H.
  unfold releases in *. simpl. destruct (isRelease e); simpl in *; lia.
Qed.

(** X2.  In the mounted component only a settle timer sends, and a release
    arms exactly one: after any sequence of events the requests issued plus
    the timers still pending never exceed the releases of the button. *)
Theorem one_send_per_release (now : Z) (tes : list (Z * Event)) :
  (length (requests (run (initial now) tes)) +
   timers (run (initial now) tes) <= releases tes)%nat.
Proof. exact (run_budget tes (initial now)). Qed.

(** ** Loading flag and requests in flight *)

Lemma step_flight (s : AppState) (t : Z) (e : Event) :
  (isLoading s = true -> 0 < inflight s)%nat ->
  (isLoading (step s (t, e)) = true -> 0 < inflight (step s (t, e)))%nat.
Proof.
  intros H. turn s t e; cbn; try (destruct (c_isRecording (rendered s)); cbn);
    first [exact H | discriminate | lia].
Qed.

(** X4.  The loading row ("Tutor is thinking...") and the inert button are
    never left on with nothing pending: whenever [isLoading] is set, a request
    is in flight. *)
Theorem loading_means_in_flight (now : Z) (tes : list (Z * Event))
    (Hload : isLoading (run (initial now) tes) = true) :
  (0 < inflight (run (initial now) tes))%nat.
Proof.
  revert Hload.
  assert (G : forall tes s, (isLoading s = true -> 0 < inflight s)%nat ->
             (isLoading (run s tes) = true -> 0 < inflight (run s tes))%nat).
  { clear. induction tes as [|[t e] tes IH]; intros s H; [exact H|].
    simpl. apply IH, step_flight, H. }
  apply G. discriminate.
Qed.

Lemma loading_means_in_flight_witness :
  Nat.lt 0 (inflight (run (initial 0)
    [(0, PressIn true true); (10, SpeechStart);
     (500, SpeechResults (Some [hello])); (501, Render);
     (900, PressOut true); (1900, TimerFire)])).
Proof.
  apply (loading_means_in_flight 0
           [(0, PressIn true true); (10, SpeechStart);
            (500, SpeechResults (Some [hello])); (501, Render);
            (900, PressOut true); (1900, TimerFire)]).
  vm_compute. reflexivity.
Defined.

(** The converse fails: the first of two requests to settle clears the flag
    while the other is still in flight. *)
Lemma settle_clears_loading (s : AppState) (t : Z) (o : Outcome) (ok : bool) :
  (0 < inflight s)%nat ->
  isLoading (step s (t, Settle o ok)) = false /\
  inflight (step s (t, Settle o ok)) = Nat.pred (inflight s).
Proof.
  intros H. apply Nat.ltb_lt in H. rewrite step_Settle, H.
  destruct (resume_cases o) as [F | (response & r & -> & E)].
  - rewrite (resume_fails o ok _ F). split; reflexivity.
  - rewrite (resume_fulfilled response r ok _ E). split; reflexivity.
Qed.

(** ** What the conversation holds *)

Lemma filter_snoc (p : Message -> bool) (ms : list Message) (m : Message) :
  List.filter p (ms ++ [m]) =
  List.filter p ms ++ (if p m then [m] else []).
Proof. rewrite List.filter_app. reflexivity. Qed.

(** X5.  User Messages and requests go in pairs: after any sequence of
    events, the texts of the user Messages, in conversation order, are the
    utterances of the requests issued, in the order they were issued. *)
Theorem user_messages_match_requests (now : Z) (tes : list (Z * Event)) :
  let s := run (initial now) tes in
  List.map msg_text (List.filter isUser (messages s)) =
  List.map requestText (requests s).
Proof.
  apply (run_inv (fun ms rs => List.map msg_text (List.filter isUser ms) =
                               List.map requestText rs)).
  - intros T s H. rewrite send_closed_form.
    destruct (hasNonWs T); [|exact H]. cbn [messages requests].
    rewrite filter_snoc, !List.map_app, H. reflexivity.
  - intros o ok s H.
    destruct (resume_cases o) as [F | (response & r & -> & E)].
    + rewrite (resume_fails o ok s F). cbn [messages requests].
      rewrite filter_snoc, List.map_app, H. cbn. apply app_nil_r.
    + rewrite (resume_fulfilled response r ok s E). cbn [messages requests].
      rewrite List.filter_app, List.map_app, H.
      destruct ok; cbn; apply app_nil_r.
  - reflexivity.
Qed.

(** X6.  Every Message of the conversation is of one of three kinds: a user
    Message whose text is a string with a code unit that is not whitespace
    (no blank user bubble is ever shown), a system Message reading "Error
    connecting to server.", or an assistant Message. *)
Theorem messages_well_formed (now : Z) (tes : list (Z * Event)) :
  Forall wellFormed (messages (run (initial now) tes)).
Proof.
  apply (run_inv (fun ms _ => Forall wellFormed ms)).
  - intros T s H. rewrite send_closed_form.
    destruct (hasNonWs T) eqn:E; [|exact H]. cbn [messages].
    apply Forall_app. split; [exact H|].
    constructor; [|constructor]. exists T. split; [reflexivity | exact E].
  - intros o ok s H.
    destruct (resume_cases o) as [F | (response & r & -> & E)].
    + rewrite (resume_fails o ok s F). cbn [messages].
      apply Forall_app. split; [exact H|]. repeat constructor.
    + rewrite (resume_fulfilled response r ok s E). cbn [messages].
      apply Forall_app. split; [exact H|].
      destruct ok; repeat constructor.
  - constructor.
Qed.

Lemma count_snoc (p : Message -> bool) (ms : list Message) (m : Message) :
  count p (ms ++ [m]) = (count p ms + (if p m then 1 else 0))%nat.
Proof.
  unfold count. rewrite filter_snoc, length_app. destruct (p m); reflexivity.
Qed.

Lemma count_snoc2 (p : Message -> bool) (ms : list Message) (m m' : Message) :
  count p (ms ++ [m; m']) =
  (count p ms + (if p m then 1 else 0) + (if p m' then 1 else 0))%nat.
Proof.
  change [m; m'] with ([m] ++ [m']). rewrite app_assoc, !count_snoc.
  reflexivity.
Qed.

Lemma step_tally (s : AppState) (t : Z) (e : Event) :
  (count isUser (messages s) = length (requests s) /\
   inflight s + count isAi (messages s) <= length (requests s) /\
   inflight s + count isSystem (messages s) <= length (requests s) /\
   length (requests s) <=
     inflight s + count isAi (messages s) + count isSystem (messages s))%nat ->
  let s' := step s (t, e) in
  (count isUser (messages s') = length (requests s') /\
   inflight s' + count isAi (messages s') <= length (requests s') /\
   inflight s' + count isSystem (messages s') <= length (requests s') /\
   length (requests s') <=
     inflight s' + count isAi (messages s') + count isSystem (messages s'))%nat.
Proof.
  intros H s'. subst s'.
  turn s t e; cbn [messages requests inflight exec setClock clearTimer
                     settleRequest snd];
    try exact H;
    try (cbn; destruct (c_isRecording (rendered s)); cbn; exact H);
    try (apply Nat.ltb_lt in Hflight);
    rewrite ?count_snoc, ?count_snoc2, ?length_app; cbn; lia.
Qed.

(** X7.  The conversation is tallied against the requests: there are as many
    user Messages as requests issued; every request that has settled left an
    assistant Message or a system Message (both, when the speech output
    throws), and neither kind outnumbers the settled requests. *)
Theorem conversation_tally (now : Z) (tes : list (Z * Event)) :
  let s := run (initial now) tes in
  (count isUser (messages s) = length (requests s) /\
   inflight s + count isAi (messages s) <= length (requests s) /\
   inflight s + count isSystem (messages s) <= length (requests s) /\
   length (requests s) <=
     inflight s + count isAi (messages s) + count isSystem (messages s))%nat.
Proof.
  cbv zeta.
  assert (G : forall tes s,
    (count isUser (messages s) = length (requests s) /\
     inflight s + count isAi (messages s) <= length (requests s) /\
     inflight s + count isSystem (messages s) <= length (requests s) /\
     length (requests s) <=
       inflight s + count isAi (messages s) + count isSystem (messages s))%nat ->
    (count isUser (messages (run s tes)) = length (requests (run s tes)) /\
     inflight (run s tes) + count isAi (messages (run s tes))
       <= length (requests (run s tes)) /\
     inflight (run s tes) + count isSystem (messages (run s tes))
       <= length (requests (run s tes)) /\
     length (requests (run s tes)) <=
       inflight (run s tes) + count isAi (messages (run s tes))
       + count isSystem (messages (run s tes)))%nat).
  { clear. induction tes as [|[t e] tes IH]; intros s H; [exact H|].
    simpl. apply IH. exact (step_tally s t e H). }
  apply G. cbn. lia.
Qed.

(** ** Alerts and speech *)

Arguments js : simpl never.

Lemma error_alert_counts :
  isErrorAlert (js "Error", js "Failed to connect to the tutor.") = true.
Proof. vm_compute. reflexivity. Qed.

Lemma permission_alert_skipped :
  isErrorAlert (js "Permission needed",
                js "Microphone permission is required to use this app.") = false.
Proof. vm_compute. reflexivity. Qed.

Lemma step_alerts (s : AppState) (t : Z) (e : Event) :
  length (List.filter isErrorAlert (alerts s)) = count isSystem (messages s) ->
  length (List.filter isErrorAlert (alerts (step s (t, e)))) =
  count isSystem (messages (step s (t, e))).
Proof.
  intros H.
  turn s t e; cbn; try (destruct (c_isRecording (rendered s)); cbn);
    try exact H;
    rewrite ?List.filter_app; cbn [List.filter];
    rewrite ?error_alert_counts, ?permission_alert_skipped;
    rewrite ?count_snoc, ?count_snoc2, ?length_app, ?H;
    unfold count; cbn; lia.
Qed.

(** X8.  Every system Message in the conversation came with one modal alert
    "Failed to connect to the tutor.", and no such alert is shown without its
    Message: the two are equal in number after any sequence of events. *)
Theorem one_alert_per_error_message (now : Z) (tes : list (Z * Event)) :
  let s := run (initial now) tes in
  length (List.filter isErrorAlert (alerts s)) = count isSystem (messages s).
Proof.
  cbv zeta.
  assert (G : forall tes s,
    length (List.filter isErrorAlert (alerts s)) = count isSystem (messages s) ->
    length (List.filter isErrorAlert (alerts (run s tes))) =
    count isSystem (messages (run s tes))).
  { clear. induction tes as [|[t e] tes IH]; intros s H; [exact H|].
    simpl. apply IH, step_alerts, H. }
  apply G. reflexivity.
Qed.

Lemma step_spoken (s : AppState) (t : Z) (e : Event) :
  List.map msg_text (List.filter isAi (messages s)) = List.map fst (spoken s) /\
  Forall (fun p => snd p = speakOptions) (spoken s) ->
  List.map msg_text (List.filter isAi (messages (step s (t, e)))) =
    List.map fst (spoken (step s (t, e))) /\
  Forall (fun p => snd p = speakOptions) (spoken (step s (t, e))).
Proof.
  intros [H F].
  turn s t e; cbn; try (destruct (c_isRecording (rendered s)); cbn);
    try (split; [exact H | exact F]);
    rewrite ?List.filter_app, ?List.map_app, ?H; cbn;
    rewrite ?app_nil_r;
    (split; [reflexivity|]);
    try exact F;
    (apply Forall_app; split; [exact F | repeat constructor]).
Qed.

(** X9.  What is spoken is what is shown: the texts handed to the speech
    output, in order, are the texts of the assistant Messages of the
    conversation, and each is spoken with the same fixed voice and pitch. *)
Theorem spoken_matches_assistant_messages (now : Z) (tes : list (Z * Event)) :
  let s := run (initial now) tes in
  List.map msg_text (List.filter isAi (messages s)) = List.map fst (spoken s) /\
  Forall (fun p => snd p = speakOptions) (spoken s).
Proof.
  cbv zeta.
  assert (G : forall tes s,
    List.map msg_text (List.filter isAi (messages s)) = List.map fst (spoken s) /\
    Forall (fun p => snd p = speakOptions) (spoken s) ->
    List.map msg_text (List.filter isAi (messages (run s tes))) =
      List.map fst (spoken (run s tes)) /\
    Forall (fun p => snd p = speakOptions) (spoken (run s tes))).
  { clear. induction tes as [|[t e] tes IH]; intros s H; [exact H|].
    simpl. apply IH, step_spoken, H. }
  apply G. split; [reflexivity | constructor].
Qed.

(** ** When identifiers are unique *)

Lemma step_ids (s : AppState) (t : Z) (e : Event) :
  clock (step s (t, e)) = t /\
  exists l, messages (step s (t, e)) = messages s ++ l /\
            NoDup (List.map msg_id l) /\
            Forall (fun i => t <= i <= t + 1) (List.map msg_id l).
Proof.
  turn s t e; cbn; try (destruct (c_isRecording (rendered s)); cbn);
    (split; [reflexivity|]);
    first
      [ exists []; split; [symmetry; apply app_nil_r | split; constructor]
      | eexists; split; [reflexivity|]; cbn; split;
        [ repeat (apply NoDup_cons; split);
          rewrite ?elem_of_cons, ?elem_of_nil; try apply NoDup_nil_2; lia
        | repeat constructor; lia ] ].
Qed.

Lemma run_ids (tes : list (Z * Event)) (s : AppState) :
  NoDup (List.map msg_id (messages s)) ->
  Forall (fun i => i <= clock s + 1) (List.map msg_id (messages s)) ->
  spaced (clock s) tes ->
  NoDup (List.map msg_id (messages (run s tes))).
Proof.
  revert s. induction tes as [|[t e] tes IH]; intros s Hnd Hle Hsp;
    [exact Hnd|].
  destruct Hsp as [Ht Hsp]. simpl.
  destruct (step_ids s t e) as (Hc & l & Hl & Hnl & Hrange).
  apply IH.
  - rewrite Hl, List.map_app. apply NoDup_app. split; [exact Hnd|].
    split; [|exact Hnl].
    intros i Hi Hi'.
    rewrite Forall_forall in Hle, Hrange.
    specialize (Hle i Hi). specialize (Hrange i Hi'). lia.
  - rewrite Hc, Hl, List.map_app. apply Forall_app. split.
    + eapply Forall_impl; [exact Hle|]. cbn. intros i Hi. lia.
    + eapply Forall_impl; [exact Hrange|]. cbn. intros i Hi. lia.
  - rewrite Hc. exact Hsp.
Qed.

(** X10.  Identifiers are readings of the clock, one per turn as long as the
    speech output does not throw.  So they are unique as soon as the turns of
    the event loop are far enough apart: if every turn comes at least two
    milliseconds after the one before, and no settlement has the speech
    output throw, no two Messages of the conversation share an identifier. *)
Theorem spaced_turns_give_unique_identifiers (now : Z)
    (tes : list (Z * Event))
    (Hspaced : spaced now tes)
    (Hspeech : forallb (fun te => speechReturns (snd te)) tes = true) :
  NoDup (List.map msg_id (messages (run (initial now) tes))).
Proof.
  apply run_ids; [constructor | constructor | exact Hspaced].
Qed.

Lemma spaced_turns_give_unique_identifiers_witness :
  NoDup (List.map msg_id (messages (run (initial 0)
    [(10, PressIn true true); (20, SpeechStart);
     (500, SpeechResults (Some [hello])); (502, Render);
     (900, PressOut true); (1900, TimerFire);
     (1902, Settle Rejected true)]))).
Proof.
  apply (spaced_turns_give_unique_identifiers 0
    [(10, PressIn true true); (20, SpeechStart);
     (500, SpeechResults (Some [hello])); (502, Render);
     (900, PressOut true); (1900, TimerFire);
     (1902, Settle Rejected true)]).
  - cbn. lia.
  - reflexivity.
Defined.

(** ** Press, release and the recognizer *)

(** X12.  A press never fails and never touches the conversation.  Whatever
    becomes of the recognizer's promises, it clears the candidate text (the
    ref keeps its text until the next render), and asks the recognizer to
    start in "en-US" exactly once, as its last call, after a stop if the
    latest render saw a recording; the recording flag is not raised by the
    press, and is cleared only by a stop that succeeded. *)
Theorem press_in_spec (s : AppState) (stop_ok start_ok : bool) (t : Z) :
  let s' := step s (t, PressIn stop_ok start_ok) in
  fst (dispatch (PressIn stop_ok start_ok) s) = Normal tt /\
  textToProcess s' = [] /\ textRef s' = textRef s /\
  voiceCalls s' =
    voiceCalls s ++ (if c_isRecording (rendered s) then [VStop] else [])
                 ++ [VStart (js "en-US")] /\
  isRecording s' =
    (if c_isRecording (rendered s) && stop_ok then false else isRecording s) /\
  messages s' = messages s /\ requests s' = requests s /\
  alerts s' = alerts s /\ timers s' = timers s /\ isLoading s' = isLoading s.
Proof.
  destruct s as [ms r l tp tr [ct [|]] k rq al sp vc n inf];
    destruct stop_ok, start_ok; cbn;
    rewrite <- ?app_assoc; repeat split; reflexivity.
Qed.

(** X13.  A release never fails and never touches the conversation or the
    candidate text.  It asks the recognizer to stop and arms exactly one
    settle timer, also when the stop is rejected; the recording flag is
    cleared only if the stop succeeded. *)
Theorem press_out_spec (s : AppState) (stop_ok : bool) (t : Z) :
  let s' := step s (t, PressOut stop_ok) in
  fst (dispatch (PressOut stop_ok) s) = Normal tt /\
  timers s' = S (timers s) /\
  voiceCalls s' = voiceCalls s ++ [VStop] /\
  isRecording s' = (if stop_ok then false else isRecording s) /\
  textToProcess s' = textToProcess s /\ textRef s' = textRef s /\
  messages s' = messages s /\ requests s' = requests s /\
  alerts s' = alerts s /\ isLoading s' = isLoading s.
Proof.
  destruct stop_ok; cbn; repeat split; reflexivity.
Qed.

(** X14.  In the mounted component an event of the recognizer does nothing
    but set the recording flag (start raises it, end and error clear it) or
    replace the candidate text (results): no Message, no request, no alert,
    no speech, no timer, and the ref and the loading flag stay as they were.
    In particular the end of speech sends nothing. *)
Theorem recognizer_events_frame (s : AppState) (t : Z) (e : Event)
    (He : isRecognizerEvent e = true) :
  let s' := step s (t, e) in
  isRecording s' =
    match e with
    | SpeechStart => true
    | SpeechResults _ => isRecording s
    | _ => false
    end /\
  textToProcess s' =
    match e with
    | SpeechResults (Some (v :: _)) => v
    | _ => textToProcess s
    end /\
  messages s' = messages s /\ requests s' = requests s /\
  alerts s' = alerts s /\ spoken s' = spoken s /\
  timers s' = timers s /\ inflight s' = inflight s /\
  textRef s' = textRef s /\ isLoading s' = isLoading s /\
  voiceCalls s' = voiceCalls s.
Proof.
  destruct e as [g | | a b | a | | | | | [[|v vs]|] | o ok];
    try discriminate He; cbn; repeat split; reflexivity.
Qed.

Lemma recognizer_events_frame_witness :
  let s := heldHello in
  let s' := step s (1000, SpeechEnd) in
  isRecording s' = false /\
  textToProcess s' = textToProcess s /\
  messages s' = messages s /\ requests s' = requests s /\
  alerts s' = alerts s /\ spoken s' = spoken s /\
  timers s' = timers s /\ inflight s' = inflight s /\
  textRef s' = textRef s /\ isLoading s' = isLoading s /\
  voiceCalls s' = voiceCalls s.
Proof.
  apply (recognizer_events_frame heldHello 1000 SpeechEnd). reflexivity.
Defined.

(** ** Only recognized text is sent *)

Lemma known_mono (H H' : list jsstring) (s : AppState) :
  known H s -> known (H ++ H') s.
Proof.
  intros (Ht & Hr & Hq). repeat split.
  - destruct Ht as [Ht|Ht]; [left; exact Ht | right; apply in_or_app; auto].
  - destruct Hr as [Hr|Hr]; [left; exact Hr | right; apply in_or_app; auto].
  - eapply Forall_impl; [exact Hq|]. cbn. intros r (v & Hv & ->).
    exists v. split; [apply in_or_app; auto | reflexivity].
Qed.

Lemma hasNonWs_nonempty (T : jsstring) : hasNonWs T = true -> T <> [].
Proof. destruct T; [discriminate | discriminate]. Qed.

Lemma step_known (H : list jsstring) (s : AppState) (t : Z) (e : Event) :
  known H s -> known (H ++ heardOf e) (step s (t, e)).
Proof.
  intros K. pose proof (known_mono H (heardOf e) s K) as (Ht & Hr & Hq).
  turn s t e; unfold known; cbn;
    try match goal with |- context [c_isRecording (rendered s)] =>
          destruct (c_isRecording (rendered s)); cbn end;
    cbn in Ht, Hr, Hq; rewrite ?app_nil_r in *;
    try (repeat split; first [assumption | left; reflexivity]).
  - (* the timer sends the text in the ref *)
    repeat split; [left; reflexivity | exact Hr |].
    apply Forall_app. split; [exact Hq|]. constructor; [|constructor].
    exists (textRef s). split; [|reflexivity].
    destruct Hr as [Hr|Hr]; [|exact Hr].
    apply hasNonWs_nonempty in Htext. contradiction.
  - (* a result is heard *)
    repeat split; [right; apply in_or_app; right; left; reflexivity | exact Hr
                  | exact Hq].
Qed.

Lemma run_known (tes : list (Z * Event)) (H : list jsstring) (s : AppState) :
  known H s -> known (H ++ heard tes) (run s tes).
Proof.
  revert H s. induction tes as [|[t e] tes IH]; intros H s K.
  - simpl. rewrite app_nil_r. exact K.
  - simpl. unfold heard in *. simpl. rewrite app_assoc.
    apply IH, step_known, K.
Qed.

(** X15.  The component sends only what the recognizer delivered: every
    request ever issued carries as utterance the first alternative of some
    results event that came before, unmodified. *)
Theorem only_recognized_text_is_sent (now : Z) (tes : list (Z * Event)) :
  Forall (fun r => exists v, In v (heard tes) /\ r = tutorRequest v)
         (requests (run (initial now) tes)).
Proof.
  assert (K : known [] (initial now)).
  { repeat split; [left; reflexivity | left; reflexivity | constructor]. }
  exact (proj2 (proj2 (run_known tes [] (initial now) K))).
Qed.

(** ** Reading the reply *)

(** X16.  The reply is looked for on the response object first: a [reply]
    there that is neither [null] nor [undefined] becomes the text of the
    assistant Message and is what is spoken, whatever the body holds. *)
Theorem top_level_reply_wins (s : AppState) (response body top : JSValue)
    (speak_ok : bool)
    (Hdata : get_prop response (js "data") = Normal body)
    (Htop : get_prop response (js "reply") = Normal top)
    (Hset : nullish top = false) :
  let s' := exec (sendTextToBackend_resume (Fulfilled response) speak_ok) s in
  (exists tail,
      messages s' = messages s ++ mkMessage (clock s + 1) top ai :: tail /\
      Forall (fun m => msg_sender m = system) tail) /\
  spoken s' = spoken s ++ [(top, speakOptions)].
Proof.
  intros s'. subst s'.
  assert (E : aiResponseOf response = Normal top).
  { unfold aiResponseOf. rewrite Hdata, Htop, Hset. reflexivity. }
  rewrite (resume_fulfilled response top speak_ok s E). cbn.
  split; [|reflexivity].
  eexists. split; [reflexivity|]. destruct speak_ok; repeat constructor.
Qed.

Lemma top_level_reply_wins_witness :
  let response := JObj [(js "reply", JStr (js "top"));
                        (js "data", JObj [(js "reply", JStr (js "body"))])] in
  let s := initial 0 in
  let s' := exec (sendTextToBackend_resume (Fulfilled response) true) s in
  (exists tail,
      messages s' =
      messages s ++ mkMessage (clock s + 1) (JStr (js "top")) ai :: tail /\
      Forall (fun m => msg_sender m = system) tail) /\
  spoken s' = spoken s ++ [(JStr (js "top"), speakOptions)].
Proof.
  apply (top_level_reply_wins (initial 0)
           (JObj [(js "reply", JStr (js "top"));
                  (js "data", JObj [(js "reply", JStr (js "body"))])])
           (JObj [(js "reply", JStr (js "body"))])
           (JStr (js "top")) true); reflexivity.
Defined.

(** X17.  The speech output is called inside the [try] block: if it throws
    after a reply was read, the assistant Message stays in the conversation
    and the failure is handled as a failed call, with the system Message
    "Error connecting to server." after it, the alert, and the loading flag
    cleared. *)
Theorem speech_failure_reported_as_error (s : AppState)
    (response r : JSValue)
    (Hreply : aiResponseOf response = Normal r) :
  let s' := exec (sendTextToBackend_resume (Fulfilled response) false) s in
  messages s' =
    messages s ++ [mkMessage (clock s + 1) r ai;
                   mkMessage (clock s) (JStr errorText) system] /\
  alerts s' = alerts s ++ [errorAlert] /\
  spoken s' = spoken s ++ [(r, speakOptions)] /\
  isLoading s' = false.
Proof.
  intros s'. subst s'. rewrite (resume_fulfilled response r false s Hreply).
  repeat split; reflexivity.
Qed.

Lemma speech_failure_reported_as_error_witness :
  let s := initial 0 in
  let s' := exec (sendTextToBackend_resume (Fulfilled okResponse) false) s in
  messages s' =
    messages s ++ [mkMessage (clock s + 1) (JStr (js "Hi there!")) ai;
                   mkMessage (clock s) (JStr errorText) system] /\
  alerts s' = alerts s ++ [errorAlert] /\
  spoken s' = spoken s ++ [(JStr (js "Hi there!"), speakOptions)] /\
  isLoading s' = false.
Proof.
  apply (speech_failure_reported_as_error (initial 0) okResponse
           (JStr (js "Hi there!"))).
  reflexivity.
Defined.
